(** * minitorch/datasets.py: synthetic two-dimensional datasets

    A shallow embedding of [src/minitorch/datasets.py].

    - Python [int] is [Z]; [N // 2] is [Z.div] (floor division), [range]
      is the list of integers it iterates over.
    - Python [float] is kept behind the interface [FloatOps], with the
      operations the module applies to floats.  Two instances are given:
      IEEE 754 binary64 (what CPython computes with; [math.cos] and
      [math.sin] come from the platform's libm and are taken as
      parameters) and the real numbers (the arithmetic the floats round).
    - [random.random()] reads and advances the process-wide generator:
      the generators run in a state monad over the generator's state that
      can also raise Python exceptions: [ZeroDivisionError] from a
      division, [OverflowError] from converting an int that is beyond the
      double range or from a repeat count that does not fit a list index,
      [KeyError] from the registry.
    - Memory is unbounded: [MemoryError] is not modelled. *)

From Stdlib Require Import ZArith String Bool Lia.
From Stdlib Require Import Reals Lra.
From Stdlib Require Import Floats.
From Stdlib Require Import List.
Import ListNotations.

Local Open Scope Z_scope.

(** ** Floats *)

Class FloatOps (F : Type) : Type := {
  fadd : F -> F -> F;
  fsub : F -> F -> F;
  fmul : F -> F -> F;
  fdiv : F -> F -> F;            (* division by a non-zero float *)
  fneg : F -> F;
  fltb : F -> F -> bool;
  float_of_int : Z -> F;         (* float(i), when [i] converts *)
  int_fits_float : Z -> bool;    (* does [i] convert without OverflowError *)
  lit : Z -> Z -> F;             (* the literal n/d: 0.5 is [lit 5 10] *)
  cos : F -> F;                  (* math.cos *)
  sin : F -> F                   (* math.sin *)
}.

Declare Scope py_scope.
Delimit Scope py_scope with py.
Infix "+" := fadd : py_scope.
Infix "-" := fsub : py_scope.
Infix "*" := fmul : py_scope.
Infix "/" := fdiv : py_scope.
Notation "- x" := (fneg x) : py_scope.
Infix "<?" := fltb : py_scope.
(* [a > b] on floats is [b < a] *)
Notation "a >? b" := (fltb b a) : py_scope.

(** Every int that can index a list converts to a float; it holds for
    binary64 and for the reals. *)
Class FloatRange (F : Type) `{FloatOps F} : Prop := {
  index_fits_float :
    forall z : Z, - 2 ^ 64 <= z <= 2 ^ 64 -> int_fits_float z = true
}.

(** The facts about float arithmetic that statements below rely on; they
    hold for binary64 and for the reals. *)
Class FloatLaws (F : Type) `{FloatOps F} : Prop := {
  fmul_fneg_l : forall a b : F, ((- a) * b)%py = (- (a * b))%py;
  fltb_asym : forall a b : F, (a <? b)%py = true -> (b <? a)%py = false;
  lit_02_lt_08 : (lit 2 10 <? lit 8 10)%py = true
}.

(** ** Exceptions and the generator-state monad *)

Inductive PyExn : Type :=
| ZeroDivisionError
| OverflowError
| KeyError (key : string).

Inductive outcome (A : Type) : Type :=
| Ret (a : A)
| Raise (e : PyExn).
Arguments Ret {A} a.
Arguments Raise {A} e.

Definition Py (S A : Type) : Type := S -> outcome A * S.

Definition ret {S A} (a : A) : Py S A := fun s => (Ret a, s).

Definition raise {S A} (e : PyExn) : Py S A := fun s => (Raise e, s).

Definition bind {S A B} (c : Py S A) (k : A -> Py S B) : Py S B :=
  fun s =>
    match c s with
    | (Ret a, s') => k a s'
    | (Raise e, s') => (Raise e, s')
    end.

Notation "x <- c ;; k" := (bind c (fun x => k))
  (at level 61, c at next level, right associativity).

(** [for i in l: acc = body(i, acc)] *)
Fixpoint for_ {S A B} (l : list A) (body : A -> B -> Py S B) (acc : B)
  : Py S B :=
  match l with
  | [] => ret acc
  | i :: l' => acc' <- body i acc ;; for_ l' body acc'
  end.

(** [[f(i) for i in l]] *)
Fixpoint comprehension {S A B} (f : A -> Py S B) (l : list A)
  : Py S (list B) :=
  match l with
  | [] => ret []
  | i :: l' => b <- f i ;; bs <- comprehension f l' ;; ret (b :: bs)
  end.

(** [range(lo, hi)]: empty when [hi <= lo]. *)
Definition range (lo hi : Z) : list Z :=
  map (fun k => lo + Z.of_nat k) (seq 0 (Z.to_nat (hi - lo))).

(** The largest list index and repeat count (CPython on a 64-bit
    platform). *)
Definition PY_SSIZE_T_MAX : Z := 2 ^ 63 - 1.

(** [[v] * k]: [OverflowError] when [k] does not fit an index, else the
    list of [k] copies of [v], empty when [k <= 0]. *)
Definition list_mul {S A} (v : A) (k : Z) : Py S (list A) :=
  if (k <? - PY_SSIZE_T_MAX - 1) || (PY_SSIZE_T_MAX <? k)
  then raise OverflowError
  else ret (repeat v (Z.to_nat k)).

(** [d[key]] on a dict given by its items. *)
Fixpoint dict_get {S V} (d : list (string * V)) (key : string) : Py S V :=
  match d with
  | [] => raise (KeyError key)
  | (k, v) :: d' => if String.eqb k key then ret v else dict_get d' key
  end.

(** ** The module *)

Record Graph (F : Type) : Type := mkGraph {
  N : Z;
  X : list (F * F);
  y : list Z
}.
Arguments mkGraph {F} N X y.
Arguments N {F} g.
Arguments X {F} g.
Arguments y {F} g.

Section Datasets.

Context {F : Type} `{FloatOps F}.
Variable Rng : Type.
(** One draw of [random.random()]: the value and the next state. *)
Variable random : Rng -> F * Rng.

Definition random_random : Py Rng F :=
  fun s => let (x, s') := random s in (Ret x, s').

(** [float(i)] of an int [i]. *)
Definition float_ (i : Z) : Py Rng F :=
  if int_fits_float i then ret (float_of_int i) else raise OverflowError.

(** [a / b] with a float [a] and an int [b]: [b] is converted to a float
    first, then tested for zero. *)
Definition truediv (a : F) (b : Z) : Py Rng F :=
  b' <- float_ b ;;
  if b =? 0 then raise ZeroDivisionError
  else ret (a / b')%py.

Definition make_pts (N : Z) : Py Rng (list (F * F)) :=
  for_ (range 0 N)
    (fun _ X =>
       x_1 <- random_random ;;
       x_2 <- random_random ;;
       ret (X ++ [(x_1, x_2)]))
    [].

(** [y = []; for x_1, x_2 in X: y.append(label(x_1, x_2))] *)
Definition label_loop (label : F -> F -> Z) (X : list (F * F)) : list Z :=
  fold_left (fun y '(x_1, x_2) => y ++ [label x_1 x_2]) X [].

Definition simple (N : Z) : Py Rng (Graph F) :=
  X <- make_pts N ;;
  let y := label_loop
             (fun x_1 x_2 => if (x_1 <? lit 5 10)%py then 1 else 0) X in
  ret (mkGraph N X y).

Definition diag (N : Z) : Py Rng (Graph F) :=
  X <- make_pts N ;;
  let y := label_loop
             (fun x_1 x_2 => if (x_1 + x_2 <? lit 5 10)%py then 1 else 0)
             X in
  ret (mkGraph N X y).

Definition split (N : Z) : Py Rng (Graph F) :=
  X <- make_pts N ;;
  let y := label_loop
             (fun x_1 x_2 =>
                if (x_1 <? lit 2 10)%py || (x_1 >? lit 8 10)%py
                then 1 else 0) X in
  ret (mkGraph N X y).

Definition xor (N : Z) : Py Rng (Graph F) :=
  X <- make_pts N ;;
  let y := label_loop
             (fun x_1 x_2 =>
                if (x_1 <? lit 5 10)%py && (x_2 >? lit 5 10)%py
                   || (x_1 >? lit 5 10)%py && (x_2 <? lit 5 10)%py
                then 1 else 0) X in
  ret (mkGraph N X y).

Definition circle (N : Z) : Py Rng (Graph F) :=
  X <- make_pts N ;;
  let y := label_loop
             (fun x_1 x_2 =>
                let x1 := (x_1 - lit 5 10)%py in
                let x2 := (x_2 - lit 5 10)%py in
                if (x1 * x1 + x2 * x2 >? lit 1 10)%py then 1 else 0) X in
  ret (mkGraph N X y).

Definition spiral (N : Z) : Py Rng (Graph F) :=
  let x t := (t * cos t / lit 20 1)%py in
  let y t := (t * sin t / lit 20 1)%py in
  X <- comprehension
         (fun i =>
            i1 <- float_ i ;;
            q1 <- truediv i1 (N / 2) ;;
            i2 <- float_ i ;;
            q2 <- truediv i2 (N / 2) ;;
            ret ((x (lit 10 1 * q1) + lit 5 10)%py,
                 (y (lit 10 1 * q2) + lit 5 10)%py))
         (range (5 + 0) (5 + N / 2)) ;;
  X2 <- comprehension
          (fun i =>
             i1 <- float_ i ;;
             q1 <- truediv i1 (N / 2) ;;
             i2 <- float_ i ;;
             q2 <- truediv i2 (N / 2) ;;
             ret ((y (- lit 10 1 * q1) + lit 5 10)%py,
                  (x (- lit 10 1 * q2) + lit 5 10)%py))
          (range (5 + 0) (5 + N / 2)) ;;
  let X := X ++ X2 in
  zeros <- list_mul 0 (N / 2) ;;
  ones <- list_mul 1 (N / 2) ;;
  let y2 := zeros ++ ones in
  ret (mkGraph N X y2).

Definition datasets : list (string * (Z -> Py Rng (Graph F))) :=
  [("Simple", simple); ("Diag", diag); ("Split", split); ("Xor", xor);
   ("Circle", circle); ("Spiral", spiral)]%string.

End Datasets.

(** ** The binary64 instance

    CPython's [float] is IEEE 754 binary64, which is what Rocq's primitive
    floats are.  [math.cos] and [math.sin] are libm's: parameters.  They
    raise only at an infinity, which [spiral] never passes them: its
    parameter is [10.0 * (float(i) / (N // 2))] with [5 <= i < 5 + N // 2]
    and both ints converted to finite floats. *)
Module Binary64.

(** The nearest binary64 to [z], ties to even: the value of [float(z)]
    when it does not overflow. *)
Definition of_Z (z : Z) : float :=
  SF2Prim (binary_normalize prec emax z 0 false).

(** The least positive int that [float] rejects: half an ulp above the
    largest double, which rounds up to [2^1024]. *)
Definition DBL_OVERFLOW : Z := 2 ^ 1024 - 2 ^ 970.

(** [float(z)] raises [OverflowError] exactly when the rounded value is
    beyond the double range. *)
Definition fits (z : Z) : bool := Z.abs z <? DBL_OVERFLOW.

Definition ops (cos sin : float -> float) : FloatOps float := {|
  fadd := PrimFloat.add;
  fsub := PrimFloat.sub;
  fmul := PrimFloat.mul;
  fdiv := PrimFloat.div;
  fneg := PrimFloat.opp;
  fltb := PrimFloat.ltb;
  float_of_int := of_Z;
  int_fits_float := fits;
  lit := fun n d => PrimFloat.div (of_Z n) (of_Z d);
  cos := cos;
  sin := sin
|}.

End Binary64.

(** ** The real-number instance

    Exact arithmetic: every int converts. *)
Module RealModel.

Definition Rltb (a b : R) : bool := if Rlt_dec a b then true else false.

#[global] Instance ops : FloatOps R := {|
  fadd := Rplus;
  fsub := Rminus;
  fmul := Rmult;
  fdiv := Rdiv;
  fneg := Ropp;
  fltb := Rltb;
  float_of_int := IZR;
  int_fits_float := fun _ => true;
  lit := fun n d => Rdiv (IZR n) (IZR d);
  cos := Rtrigo_def.cos;
  sin := Rtrigo_def.sin
|}.

End RealModel.

(** A stand-in for the random source: the state counts the draws made,
    and the draws cycle through 0.0, 0.1, ..., 0.9. *)
Definition mock_random {F} `{FloatOps F} (s : Z) : F * Z :=
  (lit (s mod 10) 10, s + 1).


(** ** Spec-side definitions, following the wording of the specification *)
Section Spec.

Context {F : Type} `{FloatOps F}.

Definition curveX (t : F) : F := (t * cos t / lit 20 1)%py.
Definition curveY (t : F) : F := (t * sin t / lit 20 1)%py.

(** [t = 10 * (i / half)] *)
Definition param (half i : Z) : F :=
  (lit 10 1 * (float_of_int i / float_of_int half))%py.

Definition arm_A (half : Z) : list (F * F) :=
  map (fun i => let t := param half i in
                ((curveX t + lit 5 10)%py, (curveY t + lit 5 10)%py))
      (range 5 (5 + half)).

Definition arm_B (half : Z) : list (F * F) :=
  map (fun i => let t := param half i in
                ((curveY (- t) + lit 5 10)%py, (curveX (- t) + lit 5 10)%py))
      (range 5 (5 + half)).

Definition spiral_spec (N : Z) : Graph F :=
  let half := N / 2 in
  mkGraph N (arm_A half ++ arm_B half)
          (repeat 0 (Z.to_nat half) ++ repeat 1 (Z.to_nat half)).

(** The labelling predicates of the five random generators. *)
Definition simple_pred (x1 x2 : F) : bool := (x1 <? lit 5 10)%py.
Definition diag_pred (x1 x2 : F) : bool := (x1 + x2 <? lit 5 10)%py.
Definition split_pred (x1 x2 : F) : bool :=
  (x1 <? lit 2 10)%py || (x1 >? lit 8 10)%py.
Definition xor_pred (x1 x2 : F) : bool :=
  ((x1 <? lit 5 10)%py && (x2 >? lit 5 10)%py)
  || ((x1 >? lit 5 10)%py && (x2 <? lit 5 10)%py).
Definition circle_pred (x1 x2 : F) : bool :=
  ((x1 - lit 5 10) * (x1 - lit 5 10) + (x2 - lit 5 10) * (x2 - lit 5 10)
   >? lit 1 10)%py.


End Spec.

(** ** Auxiliary definitions for the statements *)
Section Aux.

Context {F : Type} `{FloatOps F}.
Variable Rng : Type.
Variable random : Rng -> F * Rng.

(** The label of a point under a rule, and the five random generators
    with their rules. *)
Definition label_of (p : F -> F -> bool) (pt : F * F) : Z :=
  if p (fst pt) (snd pt) then 1 else 0.

Definition random_generators
  : list ((Z -> Py Rng (Graph F)) * (F -> F -> bool)) :=
  [(simple Rng random, simple_pred); (diag Rng random, diag_pred);
   (split Rng random, split_pred); (xor Rng random, xor_pred);
   (circle Rng random, circle_pred)].

(** The points [spiral] computes at index [i], as the code writes them. *)
Definition spiral_A (N : Z) (i : Z) : F * F :=
  let q := (float_of_int i / float_of_int (N / 2))%py in
  (((lit 10 1 * q) * cos (lit 10 1 * q) / lit 20 1 + lit 5 10)%py,
   ((lit 10 1 * q) * sin (lit 10 1 * q) / lit 20 1 + lit 5 10)%py).

Definition spiral_B (N : Z) (i : Z) : F * F :=
  let q := (float_of_int i / float_of_int (N / 2))%py in
  (((- lit 10 1 * q) * sin (- lit 10 1 * q) / lit 20 1 + lit 5 10)%py,
   ((- lit 10 1 * q) * cos (- lit 10 1 * q) / lit 20 1 + lit 5 10)%py).

(** [n] points drawn one after the other, [x_1] before [x_2], and the state
    of the random source afterwards. *)
Fixpoint draw_pts (n : nat) (s : Rng) : list (F * F) * Rng :=
  match n with
  | O => ([], s)
  | S n' =>
      let (x_1, s1) := random s in
      let (x_2, s2) := random s1 in
      let (pts, s') := draw_pts n' s2 in
      ((x_1, x_2) :: pts, s')
  end.

(** The state of the random source after [k] draws. *)
Definition after_draws (k : nat) (s : Rng) : Rng :=
  Nat.iter k (fun s => snd (random s)) s.

(** The value of the draw that follows [k] earlier ones. *)
Definition draw (k : nat) (s : Rng) : F := fst (random (after_draws k s)).

End Aux.

(** [k] fits a list index. *)
Definition index_sized (k : Z) : Prop :=
  - PY_SSIZE_T_MAX - 1 <= k <= PY_SSIZE_T_MAX.

(** A computation that leaves the state alone, with an outcome in [Q]. *)
Definition pure_in {S A} (c : Py S A) (Q : outcome A -> Prop) : Prop :=
  exists o, Q o /\ forall s, c s = (o, s).

(** A result, or an [OverflowError]. *)
Definition ret_or_overflow {A} (o : outcome A) : Prop :=
  match o with
  | Ret _ => True
  | Raise OverflowError => True
  | Raise _ => False
  end.


(** The six registered generators. *)
Definition generators {F : Type} `{FloatOps F} (Rng : Type)
    (random : Rng -> F * Rng) : list (Z -> Py Rng (Graph F)) :=
  map snd (datasets Rng random).

(** C5 as the specification states it: a negative [n] makes the generator
    raise. *)
Definition raises_on {F : Type} {Rng : Type} (g : Z -> Py Rng (Graph F))
    (n : Z) (s : Rng) : Prop :=
  exists e s', g n s = (Raise e, s').

(** [spiral(10)] returns ten points, labelled 0 five times and then 1 five
    times, and the first coordinate of the first point is [x1]. *)
Definition spiral_10_first_x {F : Type} `{FloatOps F} (Rng : Type) (s : Rng)
    (x1 : F) : Prop :=
  exists G,
    spiral Rng 10 s = (Ret G, s)
    /\ length (X G) = 10%nat
    /\ firstn 5 (y G) = [0; 0; 0; 0; 0]
    /\ skipn 5 (y G) = [1; 1; 1; 1; 1]
    /\ exists p rest, X G = p :: rest /\ fst p = x1.

(** ** Loops and comprehensions *)
Lemma bind_Ret {S A B} (c : Py S A) (k : A -> Py S B) (s s' : S) (a : A) :
  c s = (Ret a, s') -> bind c k s = k a s'.
Proof. intros E. unfold bind. now rewrite E. Qed.

Section Loops.

Context {S A B : Type}.

Lemma comprehension_pure (f : A -> Py S B) (g : A -> B) (l : list A) (s : S) :
  (forall i, In i l -> f i s = (Ret (g i), s)) ->
  comprehension f l s = (Ret (map g l), s).
Proof.
  induction l as [|i l IH]; intros Hf; simpl.
  - reflexivity.
  - rewrite (bind_Ret _ _ s s (g i)) by (apply Hf; now left).
    rewrite (bind_Ret _ _ s s (map g l)) by (apply IH; intros; apply Hf; now right).
    reflexivity.
Qed.

End Loops.

Lemma range_length (lo hi : Z) : length (range lo hi) = Z.to_nat (hi - lo).
Proof. unfold range. now rewrite length_map, length_seq. Qed.

Lemma range_nil (lo hi : Z) : hi <= lo -> range lo hi = [].
Proof.
  intros Hle. unfold range.
  replace (Z.to_nat (hi - lo)) with 0%nat by lia. reflexivity.
Qed.

Lemma range_nth (lo hi : Z) (k : nat) :
  (k < Z.to_nat (hi - lo))%nat ->
  nth_error (range lo hi) k = Some (lo + Z.of_nat k).
Proof.
  intros Hk. unfold range.
  rewrite nth_error_map, nth_error_nth' with (d := 0%nat)
    by (rewrite length_seq; exact Hk).
  rewrite seq_nth by exact Hk. reflexivity.
Qed.

Lemma range_cons (lo hi : Z) :
  lo < hi -> range lo hi = lo :: range (lo + 1) hi.
Proof.
  intros Hlt. unfold range.
  replace (Z.to_nat (hi - lo)) with (S (Z.to_nat (hi - (lo + 1)))) by lia.
  cbn [seq map]. f_equal; [lia|].
  rewrite <- seq_shift, map_map. apply map_ext. intros k. lia.
Qed.

Lemma range_In (lo hi i : Z) : In i (range lo hi) -> lo <= i < hi.
Proof.
  unfold range. rewrite in_map_iff. intros (k & <- & Hk).
  apply in_seq in Hk. lia.
Qed.

Lemma label_loop_app {F} (label : F -> F -> Z) (X : list (F * F)) (acc : list Z) :
  fold_left (fun y '(x_1, x_2) => y ++ [label x_1 x_2]) X acc
  = acc ++ map (fun p => label (fst p) (snd p)) X.
Proof.
  revert acc. induction X as [|[x_1 x_2] X IH]; intros acc; simpl.
  - now rewrite app_nil_r.
  - rewrite IH, <- app_assoc. reflexivity.
Qed.

Lemma label_loop_map {F} (label : F -> F -> Z) (X : list (F * F)) :
  label_loop label X = map (fun p => label (fst p) (snd p)) X.
Proof. unfold label_loop. now rewrite label_loop_app. Qed.

(** ** What the generators compute *)
Section Facts.

Context {F : Type} `{FloatOps F}.
Variable Rng : Type.
Variable random : Rng -> F * Rng.

Lemma make_pts_loop (l : list Z) :
  forall (acc : list (F * F)) (s : Rng),
  exists pts s',
    for_ l (fun _ X =>
              x_1 <- random_random Rng random ;;
              x_2 <- random_random Rng random ;;
              ret (X ++ [(x_1, x_2)])) acc s
    = (Ret (acc ++ pts), s')
    /\ length pts = length l.
Proof.
  induction l as [|i l IH]; intros acc s; simpl.
  - exists [], s. now rewrite app_nil_r.
  - unfold bind at 1. unfold bind at 1. unfold random_random at 1.
    destruct (random s) as [x_1 s1].
    unfold bind at 1. unfold random_random at 1.
    destruct (random s1) as [x_2 s2]. unfold ret at 1.
    destruct (IH (acc ++ [(x_1, x_2)]) s2) as (pts & s' & E & L).
    exists ((x_1, x_2) :: pts), s'. rewrite E, <- app_assoc. simpl.
    split; [reflexivity | now rewrite L].
Qed.

Lemma make_pts_run (N : Z) (s : Rng) :
  exists pts s',
    make_pts Rng random N s = (Ret pts, s')
    /\ length pts = Z.to_nat N.
Proof.
  destruct (make_pts_loop (range 0 N) [] s) as (pts & s' & E & L).
  exists pts, s'. split; [exact E|].
  rewrite L, range_length. f_equal. lia.
Qed.

Lemma random_generator_run g p (N : Z) (s : Rng) :
  In (g, p) (random_generators Rng random) ->
  exists pts s',
    make_pts Rng random N s = (Ret pts, s')
    /\ length pts = Z.to_nat N
    /\ g N s = (Ret (mkGraph N pts (map (label_of p) pts)), s').
Proof.
  intros Hin.
  destruct (make_pts_run N s) as (pts & s' & E & L).
  exists pts, s'. split; [exact E|]. split; [exact L|].
  simpl in Hin.
  destruct Hin as [Hg|[Hg|[Hg|[Hg|[Hg|[]]]]]]; inversion Hg; subst g p;
    clear Hg;
    [unfold simple | unfold diag | unfold split | unfold xor | unfold circle];
    rewrite (bind_Ret _ _ s s' pts E); unfold ret;
    rewrite label_loop_map; reflexivity.
Qed.

Lemma pure_in_ret {A} (a : A) (Q : outcome A -> Prop) :
  Q (Ret a) -> pure_in (S := Rng) (ret a) Q.
Proof. intros HQ. exists (Ret a). split; [exact HQ | reflexivity]. Qed.

Lemma pure_in_raise {A} (e : PyExn) (Q : outcome A -> Prop) :
  Q (Raise e) -> pure_in (S := Rng) (raise e) Q.
Proof. intros HQ. exists (Raise e). split; [exact HQ | reflexivity]. Qed.

Lemma pure_in_bind {A B} (c : Py Rng A) (k : A -> Py Rng B)
    (Q1 : outcome A -> Prop) (Q2 : outcome B -> Prop) :
  pure_in c Q1 ->
  (forall a, Q1 (Ret a) -> pure_in (k a) Q2) ->
  (forall e, Q1 (Raise e) -> Q2 (Raise e)) ->
  pure_in (bind c k) Q2.
Proof.
  intros ([a|e] & HQ & Hc) Hk He.
  - destruct (Hk a HQ) as (o & HQo & Ho). exists o. split; [exact HQo|].
    intros s. unfold bind. now rewrite Hc.
  - exists (Raise e). split; [now apply He|].
    intros s. unfold bind. now rewrite Hc.
Qed.

Lemma pure_in_comprehension {A B} (f : A -> Py Rng B) (l : list A) :
  (forall i, In i l -> pure_in (f i) ret_or_overflow) ->
  pure_in (comprehension f l) ret_or_overflow.
Proof.
  induction l as [|i l IH]; intros Hf; cbn [comprehension].
  - now apply pure_in_ret.
  - apply (pure_in_bind _ _ ret_or_overflow); [apply Hf; now left | | auto].
    intros b _.
    apply (pure_in_bind _ _ ret_or_overflow);
      [apply IH; intros; apply Hf; now right | | auto].
    intros bs _. now apply pure_in_ret.
Qed.

Lemma pure_in_float_ (i : Z) : pure_in (float_ Rng i) ret_or_overflow.
Proof.
  unfold float_. destruct (int_fits_float i);
    [now apply pure_in_ret | now apply pure_in_raise].
Qed.

Lemma pure_in_truediv (a : F) (b : Z) :
  b <> 0 -> pure_in (truediv Rng a b) ret_or_overflow.
Proof.
  intros Hb. unfold truediv. apply Z.eqb_neq in Hb. rewrite Hb.
  apply (pure_in_bind _ _ ret_or_overflow); [apply pure_in_float_ | | auto].
  intros b' _. now apply pure_in_ret.
Qed.

Lemma pure_in_list_mul {A} (v : A) (k : Z) :
  pure_in (S := Rng) (list_mul v k) ret_or_overflow.
Proof.
  unfold list_mul.
  destruct ((k <? - PY_SSIZE_T_MAX - 1) || (PY_SSIZE_T_MAX <? k));
    [now apply pure_in_raise | now apply pure_in_ret].
Qed.

Lemma list_mul_index_sized {A} (v : A) (k : Z) (s : Rng) :
  index_sized k -> list_mul v k s = (Ret (repeat v (Z.to_nat k)), s).
Proof.
  intros [Hlo Hhi]. unfold list_mul.
  replace (k <? - PY_SSIZE_T_MAX - 1) with false by (symmetry; apply Z.ltb_ge; lia).
  replace (PY_SSIZE_T_MAX <? k) with false by (symmetry; apply Z.ltb_ge; lia).
  reflexivity.
Qed.

Lemma list_mul_overflow {A} (v : A) (k : Z) (s : Rng) :
  ~ index_sized k -> list_mul v k s = (Raise OverflowError, s).
Proof.
  intros Hk. unfold list_mul, index_sized in *.
  destruct (Z.ltb_spec k (- PY_SSIZE_T_MAX - 1)); [reflexivity|].
  destruct (Z.ltb_spec PY_SSIZE_T_MAX k); [reflexivity|]. lia.
Qed.

(** The two comprehensions of [spiral]: a list of points or an
    [OverflowError], never a [ZeroDivisionError], whatever the state. *)
Lemma pure_in_spiral_arm (N : Z) (pt : F -> F -> F * F) :
  pure_in
    (comprehension
       (fun i =>
          i1 <- float_ Rng i ;;
          q1 <- truediv Rng i1 (N / 2) ;;
          i2 <- float_ Rng i ;;
          q2 <- truediv Rng i2 (N / 2) ;;
          ret (pt q1 q2))
       (range 5 (5 + N / 2)))
    ret_or_overflow.
Proof.
  destruct (Z.eq_dec (N / 2) 0) as [E0|Hne].
  - rewrite E0. rewrite (range_nil 5 (5 + 0)) by lia.
    now apply pure_in_ret.
  - apply pure_in_comprehension. intros i _.
    apply (pure_in_bind _ _ ret_or_overflow); [apply pure_in_float_ | | auto].
    intros i1 _.
    apply (pure_in_bind _ _ ret_or_overflow);
      [now apply pure_in_truediv | | auto].
    intros q1 _.
    apply (pure_in_bind _ _ ret_or_overflow); [apply pure_in_float_ | | auto].
    intros i2 _.
    apply (pure_in_bind _ _ ret_or_overflow);
      [now apply pure_in_truediv | | auto].
    intros q2 _. now apply pure_in_ret.
Qed.

(** [spiral] draws nothing, and it returns or raises [OverflowError]. *)
Lemma pure_in_spiral (N : Z) : pure_in (spiral Rng N) ret_or_overflow.
Proof.
  unfold spiral. change (5 + 0) with 5.
  apply (pure_in_bind _ _ ret_or_overflow);
    [apply (pure_in_spiral_arm N (fun q1 q2 => (_, _))) | | auto].
  intros X1 _.
  apply (pure_in_bind _ _ ret_or_overflow);
    [apply (pure_in_spiral_arm N (fun q1 q2 => (_, _))) | | auto].
  intros X2 _.
  apply (pure_in_bind _ _ ret_or_overflow); [apply pure_in_list_mul | | auto].
  intros zeros _.
  apply (pure_in_bind _ _ ret_or_overflow); [apply pure_in_list_mul | | auto].
  intros ones _. now apply pure_in_ret.
Qed.

(** Below [-2^63] the repeat count [N // 2] does not fit a list index:
    both ranges are empty and [[0] * (N // 2)] raises [OverflowError]. *)
Lemma spiral_overflow_low (N : Z) (s : Rng) :
  N / 2 < - PY_SSIZE_T_MAX - 1 ->
  spiral Rng N s = (Raise OverflowError, s).
Proof.
  intros Hlo. unfold spiral. change (5 + 0) with 5.
  assert (PY_SSIZE_T_MAX = 2 ^ 63 - 1) by reflexivity.
  rewrite range_nil by lia. cbn [comprehension].
  unfold bind, ret. rewrite list_mul_overflow; [reflexivity|].
  unfold index_sized. lia.
Qed.

(** When [N // 2 >= 1] is too large to convert to a float, the first
    division of the first comprehension raises [OverflowError]. *)
Lemma spiral_overflow_float (N : Z) (s : Rng) :
  1 <= N / 2 -> int_fits_float (N / 2) = false ->
  spiral Rng N s = (Raise OverflowError, s).
Proof.
  intros Hhalf Hfit. unfold spiral. change (5 + 0) with 5.
  rewrite (range_cons 5 (5 + N / 2)) by lia. cbn [comprehension].
  unfold bind at 1. unfold bind at 1. unfold bind at 1.
  unfold float_ at 1. destruct (int_fits_float 5); [|reflexivity].
  unfold ret at 1. unfold bind at 1. unfold truediv at 1.
  unfold bind at 1. unfold float_ at 1. rewrite Hfit. reflexivity.
Qed.

(** When [N // 2] fits a list index (then every int converts) [spiral]
    returns its points and labels. *)
Lemma spiral_run `{!FloatRange F} (N : Z) (s : Rng) :
  index_sized (N / 2) ->
  spiral Rng N s
  = (Ret (mkGraph N
            (map (spiral_A N) (range 5 (5 + N / 2))
             ++ map (spiral_B N) (range 5 (5 + N / 2)))
            (repeat 0 (Z.to_nat (N / 2)) ++ repeat 1 (Z.to_nat (N / 2)))),
     s).
Proof.
  intros Hk. unfold spiral. change (5 + 0) with 5.
  assert (Harm : forall (pt : F -> F -> F * F),
            comprehension
              (fun i =>
                 i1 <- float_ Rng i ;;
                 q1 <- truediv Rng i1 (N / 2) ;;
                 i2 <- float_ Rng i ;;
                 q2 <- truediv Rng i2 (N / 2) ;;
                 ret (pt q1 q2))
              (range 5 (5 + N / 2)) s
            = (Ret (map (fun i =>
                           let q := (float_of_int i / float_of_int (N / 2))%py
                           in pt q q)
                        (range 5 (5 + N / 2))), s)).
  { intros pt. apply comprehension_pure. intros i Hi.
    apply range_In in Hi.
    unfold index_sized, PY_SSIZE_T_MAX in Hk.
    assert (Hne : (N / 2 =? 0) = false) by (apply Z.eqb_neq; lia).
    unfold truediv, float_.
    rewrite (index_fits_float i) by lia.
    rewrite (index_fits_float (N / 2)) by lia.
    unfold bind, ret. rewrite Hne. reflexivity. }
  rewrite (bind_Ret _ _ s s _ (Harm (fun q1 q2 => (_, _)))).
  rewrite (bind_Ret _ _ s s _ (Harm (fun q1 q2 => (_, _)))).
  rewrite (bind_Ret _ _ s s _ (list_mul_index_sized 0 (N / 2) s Hk)).
  rewrite (bind_Ret _ _ s s _ (list_mul_index_sized 1 (N / 2) s Hk)).
  reflexivity.
Qed.

End Facts.

(** ** The laws at the two instances *)

Lemma Rltb_true (a b : R) : RealModel.Rltb a b = true <-> (a < b)%R.
Proof.
  unfold RealModel.Rltb. destruct (Rlt_dec a b); split; intros; try easy.
Qed.

Lemma Rltb_false (a b : R) : RealModel.Rltb a b = false <-> (b <= a)%R.
Proof.
  unfold RealModel.Rltb. destruct (Rlt_dec a b); split; intros; try easy; lra.
Qed.

#[global] Instance Real_laws : FloatLaws R.
Proof.
  split; simpl.
  - intros a b. ring.
  - intros a b Hlt. apply Rltb_true in Hlt. apply Rltb_false. lra.
  - apply Rltb_true. lra.
Qed.

Lemma binary_round_aux_negb (sx : bool) (mx ex : Z) (lx : location) :
  binary_round_aux prec emax (negb sx) mx ex lx
  = SFopp (binary_round_aux prec emax sx mx ex lx).
Proof.
  unfold binary_round_aux.
  destruct (shr_fexp prec emax mx ex lx) as [mrs' e'].
  destruct (shr_fexp prec emax _ e' loc_Exact) as [mrs'' e''].
  destruct (shr_m mrs''); try reflexivity.
  destruct (e'' <=? emax - prec); reflexivity.
Qed.

Lemma SFmul_opp_l (a b : spec_float) :
  SFmul prec emax (SFopp a) b = SFopp (SFmul prec emax a b).
Proof.
  destruct a as [sa|sa| |sa ma ea], b as [sb|sb| |sb mb eb]; simpl;
    try reflexivity; try (now destruct sa, sb).
  rewrite <- binary_round_aux_negb. now destruct sa, sb.
Qed.

Lemma SFcompare_antisym (a b : spec_float) :
  SFcompare b a = option_map CompOpp (SFcompare a b).
Proof.
  destruct a as [sa|sa| |sa ma ea], b as [sb|sb| |sb mb eb]; simpl;
    try reflexivity;
    try (destruct sa; reflexivity); try (destruct sb; reflexivity);
    try (destruct sa, sb; reflexivity).
  destruct sa, sb; simpl; try reflexivity;
    rewrite (Z.compare_antisym ea eb);
    destruct (ea ?= eb); simpl; try reflexivity;
    change (Pos.compare_cont Eq mb ma) with (Pos.compare mb ma);
    change (Pos.compare_cont Eq ma mb) with (Pos.compare ma mb);
    rewrite (Pos.compare_antisym ma mb); reflexivity.
Qed.

Lemma Binary64_laws (cos sin : float -> float) :
  @FloatLaws float (Binary64.ops cos sin).
Proof.
  split; simpl.
  - intros a b. apply Prim2SF_inj.
    rewrite mul_spec, !opp_spec, mul_spec. apply SFmul_opp_l.
  - intros a b. rewrite !ltb_spec. unfold SFltb.
    rewrite (SFcompare_antisym (Prim2SF a) (Prim2SF b)).
    destruct (SFcompare (Prim2SF a) (Prim2SF b)) as [[| |]|]; simpl; congruence.
  - vm_compute. reflexivity.
Qed.

#[global] Instance Real_range : FloatRange R.
Proof. split. reflexivity. Qed.

#[global] Instance Binary64_range (cos sin : float -> float) :
  @FloatRange float (Binary64.ops cos sin).
Proof.
  split. intros z Hz. simpl.
  unfold Binary64.fits, Binary64.DBL_OVERFLOW. apply Z.ltb_lt. lia.
Qed.

(** The conversion threshold in binary64: the int just below it rounds to
    the largest double, the threshold itself rounds to infinity. *)
Example float_conversion_threshold :
  Prim2SF (Binary64.of_Z (Binary64.DBL_OVERFLOW - 1))
  = S754_finite false (2 ^ 53 - 1) 971
  /\ Prim2SF (Binary64.of_Z Binary64.DBL_OVERFLOW) = S754_infinity false
  /\ Binary64.fits (Binary64.DBL_OVERFLOW - 1) = true
  /\ Binary64.fits Binary64.DBL_OVERFLOW = false
  /\ Binary64.fits (- Binary64.DBL_OVERFLOW) = false.
Proof. repeat split; vm_compute; reflexivity. Qed.

(** The rules at the sample points of the specification, in binary64:
    (0.3, 0.9) and (0.7, 0.1) for [simple], (0.1, 0.1) and (0.4, 0.4) for
    [diag], the centre (0.5, 0.5) and (0.9, 0.9) for [circle]. *)
Example rules_at_sample_points (c sn : float -> float) :
  let ops := Binary64.ops c sn in
  @simple_pred float ops (lit 3 10) (lit 9 10) = true
  /\ @simple_pred float ops (lit 7 10) (lit 1 10) = false
  /\ @diag_pred float ops (lit 1 10) (lit 1 10) = true
  /\ @diag_pred float ops (lit 4 10) (lit 4 10) = false
  /\ @circle_pred float ops (lit 5 10) (lit 5 10) = false
  /\ @circle_pred float ops (lit 9 10) (lit 9 10) = true.
Proof. repeat split; vm_compute; reflexivity. Qed.

(** ** Properties of the generators *)
Section Properties.

Context {F : Type} `{FloatOps F}.
Variable Rng : Type.
Variable random : Rng -> F * Rng.

Lemma make_pts_nonpositive (n : Z) (s : Rng) :
  n <= 0 -> make_pts Rng random n s = (Ret [], s).
Proof.
  intros Hn. unfold make_pts. rewrite range_nil by lia. reflexivity.
Qed.

Lemma spiral_spec_run `{!FloatLaws F} `{!FloatRange F} (n : Z) (s : Rng) :
  index_sized (n / 2) ->
  spiral Rng n s = (Ret (spiral_spec n), s).
Proof.
  intros Hk. rewrite (spiral_run Rng n s Hk).
  unfold spiral_spec, arm_A, arm_B.
  do 3 f_equal. f_equal. apply map_ext. intros i.
  unfold spiral_B, curveX, curveY, param. cbv zeta.
  now rewrite fmul_fneg_l.
Qed.

Lemma spiral_lengths (n : Z) :
  length (map (spiral_A n) (range 5 (5 + n / 2))
          ++ map (spiral_B n) (range 5 (5 + n / 2)))
  = (Z.to_nat (n / 2) + Z.to_nat (n / 2))%nat
  /\ length (repeat 0 (Z.to_nat (n / 2)) ++ repeat 1 (Z.to_nat (n / 2)))
     = (Z.to_nat (n / 2) + Z.to_nat (n / 2))%nat.
Proof.
  rewrite !length_app, !length_map, !repeat_length, range_length.
  replace (5 + n / 2 - 5) with (n / 2) by lia. split; reflexivity.
Qed.

Lemma dict_get_missing {V} (d : list (string * V)) (key : string) (s : Rng) :
  ~ In key (map fst d) -> dict_get d key s = (Raise (KeyError key), s).
Proof.
  induction d as [|[k v] d IH]; simpl; intros Hnot.
  - reflexivity.
  - destruct (String.eqb_spec k key) as [->|Hne].
    + exfalso. apply Hnot. now left.
    + apply IH. intros Hin. apply Hnot. now right.
Qed.

End Properties.

(** ** The spiral *)

(** Closes [index_sized k] for a literal [k]. *)
Ltac index_sized_literal :=
  unfold index_sized; vm_compute; split; discriminate.

(** The halves of [2 * 10^400], [10^400] and [4 * 10^400] are beyond the
    double range. *)
Lemma huge_halves_do_not_convert :
  Binary64.fits (2 * 10 ^ 400 / 2) = false
  /\ Binary64.fits (10 ^ 400 / 2) = false
  /\ Binary64.fits (4 * 10 ^ 400 / 2) = false.
Proof. repeat split; vm_compute; reflexivity. Qed.

(** C1, refuted: [2 * 10^400] is even and at least 2, and [spiral] raises
    [OverflowError] on it, converting [N // 2] to a float. *)
Lemma spiral_of_huge_even_count_raises :
  Z.even (2 * 10 ^ 400) = true /\ 2 <= 2 * 10 ^ 400 /\
  forall c sn : float -> float,
    @spiral float (Binary64.ops c sn) Z (2 * 10 ^ 400) 0
    = (Raise OverflowError, 0).
Proof.
  split; [vm_compute; reflexivity|]. split; [vm_compute; discriminate|].
  intros c sn. apply spiral_overflow_float.
  - vm_compute. discriminate.
  - apply huge_halves_do_not_convert.
Qed.

(** C1, amended. For every even [n >= 2] with [n // 2 <= 2^63 - 1],
    [spiral(n)] returns the dataset of the specification: Arm A's points
    [(t*cos(t)/20 + 0.5, t*sin(t)/20 + 0.5)] for [i] in [[5, 5 + n//2)]
    with [t = 10*(i/(n//2))], followed by Arm B's points
    [(curveY(-t) + 0.5, curveX(-t) + 0.5)] over the same range, and labels
    [n//2] zeros followed by [n//2] ones; when [n // 2] is too large to
    convert to a float it raises [OverflowError]. *)
Theorem spiral_even_is_spec {F : Type} `{FloatLaws F} `{!FloatRange F}
    (Rng : Type) (n : Z) (s : Rng) :
  Z.even n = true -> 2 <= n ->
  (n / 2 <= PY_SSIZE_T_MAX -> spiral Rng n s = (Ret (spiral_spec n), s))
  /\ (int_fits_float (n / 2) = false ->
      spiral Rng n s = (Raise OverflowError, s)).
Proof.
  intros _ Hn.
  assert (Hhalf : 1 <= n / 2) by (apply Z.div_le_lower_bound; lia).
  split.
  - intros Hmax. apply spiral_spec_run; [assumption..|].
    unfold index_sized, PY_SSIZE_T_MAX in *. lia.
  - intros Hfit. now apply spiral_overflow_float.
Qed.

Lemma spiral_even_is_spec_witness :
  Z.even 4 = true /\ 2 <= 4 /\ 4 / 2 <= PY_SSIZE_T_MAX /\
  @spiral R _ Z 4 0 = (Ret (spiral_spec 4), 0).
Proof.
  assert (Hmax : 4 / 2 <= PY_SSIZE_T_MAX) by (vm_compute; discriminate).
  split; [reflexivity|]. split; [lia|]. split; [exact Hmax|].
  apply (spiral_even_is_spec Z 4 0 eq_refl ltac:(lia)). exact Hmax.
Defined.

(** C9. [spiral] never divides by zero: for [n = 0] and [n = 1] the
    divisor [n // 2] is 0 but both ranges are empty, and the call returns
    [Graph(n, [], [])]; for no [n] at all does the call raise
    [ZeroDivisionError]. *)
Theorem spiral_never_divides_by_zero {F : Type} `{FloatOps F} (Rng : Type)
    (s : Rng) :
  spiral Rng 0 s = (Ret (mkGraph 0 [] []), s)
  /\ spiral Rng 1 s = (Ret (mkGraph 1 [] []), s)
  /\ forall (n : Z) (s' : Rng),
       spiral Rng n s <> (Raise ZeroDivisionError, s').
Proof.
  split; [reflexivity|]. split; [reflexivity|].
  intros n s' E.
  destruct (pure_in_spiral Rng n) as (o & Ho & Hrun).
  rewrite Hrun in E. inversion E; subst o. exact Ho.
Qed.

(** C8. [spiral] is deterministic: it neither reads nor advances the random
    source, so two calls with the same [n], whatever happens to the random
    source in between, return the same dataset. *)
Theorem spiral_deterministic {F : Type} `{FloatOps F} (Rng : Type)
    (n : Z) (s1 s2 : Rng) :
  fst (spiral Rng n s1) = fst (spiral Rng n s2)
  /\ snd (spiral Rng n s1) = s1
  /\ fst (spiral Rng n (snd (spiral Rng n s1))) = fst (spiral Rng n s1).
Proof.
  destruct (pure_in_spiral Rng n) as (o & _ & Hrun).
  rewrite !Hrun. simpl. rewrite ?Hrun. auto.
Qed.

(** ** The random generators *)

Lemma even_iff_halves (n : Z) : 2 * (n / 2) = n <-> Z.even n = true.
Proof.
  rewrite Z.even_spec. split.
  - intros E. exists (n / 2). lia.
  - intros [m ->]. rewrite (Z.mul_comm 2 m), Z.div_mul by lia. lia.
Qed.

(** C2, refuted: [10^400 >= 0], and [spiral(10^400)] returns no dataset
    whose lengths could be compared: it raises [OverflowError]. *)
Lemma spiral_of_huge_count_has_no_lengths :
  0 <= 10 ^ 400 /\
  forall c sn : float -> float,
    ~ exists (G : Graph float) (s' : Z),
        @spiral float (Binary64.ops c sn) Z (10 ^ 400) 0 = (Ret G, s').
Proof.
  split; [vm_compute; discriminate|].
  intros c sn (G & s' & E).
  rewrite spiral_overflow_float in E; [discriminate| |].
  - vm_compute. discriminate.
  - apply huge_halves_do_not_convert.
Qed.

(** C2, amended. For [n >= 0], each of [simple], [diag], [split], [xor],
    [circle] returns a dataset with [len(X) = len(y) = n] and declared
    [N = n]; [spiral], when [n // 2 <= 2^63 - 1], returns one with
    [len(X) = len(y) = 2*(n // 2)], which equals the declared [N] exactly
    when [n] is even, and when [n // 2 >= 1] is too large to convert to a
    float it raises [OverflowError]. *)
Theorem generator_lengths {F : Type} `{FloatOps F} `{!FloatRange F}
    (Rng : Type) (random : Rng -> F * Rng) (n : Z) (s : Rng) :
  0 <= n ->
  (forall g p, In (g, p) (random_generators Rng random) ->
     exists G s', g n s = (Ret G, s')
       /\ Z.of_nat (length (X G)) = n
       /\ Z.of_nat (length (y G)) = n
       /\ N G = n)
  /\ (n / 2 <= PY_SSIZE_T_MAX ->
      exists G, spiral Rng n s = (Ret G, s)
       /\ Z.of_nat (length (X G)) = 2 * (n / 2)
       /\ Z.of_nat (length (y G)) = 2 * (n / 2)
       /\ N G = n
       /\ (2 * (n / 2) = N G <-> Z.even n = true))
  /\ (1 <= n / 2 -> int_fits_float (n / 2) = false ->
      spiral Rng n s = (Raise OverflowError, s)).
Proof.
  intros Hn.
  assert (Hhalf : 0 <= n / 2) by (apply Z.div_pos; lia).
  split; [|split].
  - intros g p Hin.
    destruct (random_generator_run Rng random g p n s Hin)
      as (pts & s' & _ & L & E).
    eexists. exists s'. split; [exact E|]. simpl.
    rewrite length_map, L. repeat split; lia.
  - intros Hmax. eexists. split.
    + apply spiral_run; [exact _|].
      unfold index_sized, PY_SSIZE_T_MAX in *. lia.
    + cbn [X y N].
      destruct (spiral_lengths n) as [LX Ly]. rewrite LX, Ly.
      repeat split; try lia; apply even_iff_halves.
  - intros Hone Hfit. now apply spiral_overflow_float.
Qed.

Lemma generator_lengths_witness :
  0 <= 3 /\ 3 / 2 <= PY_SSIZE_T_MAX /\
  exists G, @spiral R _ Z 3 0 = (Ret G, 0)
            /\ Z.of_nat (length (X G)) = 2 * (3 / 2).
Proof.
  assert (Hmax : 3 / 2 <= PY_SSIZE_T_MAX) by (vm_compute; discriminate).
  split; [lia|]. split; [exact Hmax|].
  destruct (generator_lengths Z (@mock_random R _) 3 0 ltac:(lia))
    as (_ & Hspiral & _).
  destruct (Hspiral Hmax) as (G & E & L & _).
  exists G. split; [exact E | exact L].
Defined.

(** C4. For [n >= 0] and every index [i < n], each of [simple], [diag],
    [split], [xor], [circle] gives [y[i]] in {0, 1}, and [y[i] = 1] exactly
    when the generator's rule holds of [X[i]]; the comparisons are strict,
    so a point on the boundary of a rule is labelled 0. *)
Theorem labels_follow_predicate {F : Type} `{FloatLaws F} (Rng : Type)
    (random : Rng -> F * Rng) (n : Z) (s : Rng) :
  0 <= n ->
  (forall g p, In (g, p) (random_generators Rng random) ->
     exists G s', g n s = (Ret G, s')
       /\ forall i, 0 <= i < n ->
            exists x1 x2 l,
              nth_error (X G) (Z.to_nat i) = Some (x1, x2)
              /\ nth_error (y G) (Z.to_nat i) = Some l
              /\ (l = 0 \/ l = 1)
              /\ (l = 1 <-> p x1 x2 = true))
  /\ (forall x2, simple_pred (lit 5 10) x2 = false)
  /\ (forall x1 x2, (x1 + x2)%py = lit 5 10 -> diag_pred x1 x2 = false)
  /\ (forall x2, split_pred (lit 2 10) x2 = false
                 /\ split_pred (lit 8 10) x2 = false)
  /\ (forall x1 x2, x1 = lit 5 10 \/ x2 = lit 5 10 -> xor_pred x1 x2 = false)
  /\ (forall x1 x2,
        ((x1 - lit 5 10) * (x1 - lit 5 10)
         + (x2 - lit 5 10) * (x2 - lit 5 10))%py = lit 1 10 ->
        circle_pred x1 x2 = false).
Proof.
  intros Hn.
  assert (Hirr : forall a : F, (a <? a)%py = false).
  { intros a. destruct (a <? a)%py eqn:E; [|reflexivity].
    now rewrite (fltb_asym a a E) in E. }
  split; [|repeat split].
  - intros g p Hin.
    destruct (random_generator_run Rng random g p n s Hin)
      as (pts & s' & _ & L & E).
    eexists. exists s'. split; [exact E|]. simpl. intros i Hi.
    destruct (nth_error pts (Z.to_nat i)) as [[x1 x2]|] eqn:Hnth.
    + exists x1, x2, (label_of p (x1, x2)).
      split; [reflexivity|]. split.
      * now rewrite nth_error_map, Hnth.
      * unfold label_of. simpl. destruct (p x1 x2); split; auto; split;
          intros; try reflexivity; discriminate.
    + apply nth_error_None in Hnth. lia.
  - intros x2. apply Hirr.
  - intros x1 x2 E. unfold diag_pred. rewrite E. apply Hirr.
  - unfold split_pred. rewrite Hirr. simpl.
    apply fltb_asym, lit_02_lt_08.
  - unfold split_pred. rewrite Hirr, orb_false_r.
    apply fltb_asym, lit_02_lt_08.
  - intros x1 x2 [-> | ->]; unfold xor_pred; rewrite !Hirr;
      now rewrite ?andb_false_r, ?andb_false_l.
  - intros x1 x2 E. unfold circle_pred. rewrite E. apply Hirr.
Qed.

Lemma labels_follow_predicate_witness :
  0 <= 2 /\
  exists G s',
    simple Z (@mock_random R _) 2 0 = (Ret G, s')
    /\ exists x1 x2 l,
         nth_error (X G) 1 = Some (x1, x2)
         /\ nth_error (y G) 1 = Some l
         /\ (l = 1 <-> simple_pred x1 x2 = true).
Proof.
  split; [lia|].
  destruct (labels_follow_predicate Z (@mock_random R _) 2 0 ltac:(lia))
    as [Hgen _].
  destruct (Hgen (simple Z mock_random) simple_pred ltac:(now left))
    as (G & s' & E & Hlab).
  exists G, s'. split; [exact E|].
  destruct (Hlab 1 ltac:(lia)) as (x1 & x2 & l & HX & Hy & _ & Hl).
  exists x1, x2, l. auto.
Defined.

(** ** Negative sample counts *)

Lemma random_generator_negative {F : Type} `{FloatOps F}
    (Rng : Type) (random : Rng -> F * Rng) (n : Z) (s : Rng) g p :
  n < 0 ->
  In (g, p) (random_generators Rng random) ->
  g n s = (Ret (mkGraph n [] []), s).
Proof.
  intros Hn Hin.
  destruct (random_generator_run Rng random g p n s Hin)
    as (pts & s' & Emk & _ & E).
  rewrite make_pts_nonpositive in Emk by lia.
  inversion Emk; subst pts s'. exact E.
Qed.

(** C10. For negative [n], each of [simple], [diag], [split], [xor],
    [circle] returns [Graph(n, [], [])] without raising and without drawing:
    [range(n)] is empty, both lists are empty and the declared [N] keeps the
    negative value, so [len(X) = len(y) = N] does not hold. *)
Theorem negative_count_gives_empty_graph {F : Type} `{FloatOps F}
    (Rng : Type) (random : Rng -> F * Rng) (n : Z) (s : Rng) g p :
  n < 0 ->
  In (g, p) (random_generators Rng random) ->
  exists G,
    g n s = (Ret G, s)
    /\ G = mkGraph n [] []
    /\ N G = n
    /\ Z.of_nat (length (X G)) <> N G
    /\ Z.of_nat (length (y G)) <> N G.
Proof.
  intros Hn Hin. exists (mkGraph n [] []).
  split; [now apply (random_generator_negative Rng random n s g p)|].
  simpl. repeat split; lia.
Qed.

Lemma negative_count_gives_empty_graph_witness :
  -3 < 0 /\
  exists G, diag Z (@mock_random R _) (-3) 0 = (Ret G, 0)
            /\ Z.of_nat (length (X G)) <> N G.
Proof.
  split; [lia|].
  destruct (negative_count_gives_empty_graph Z (@mock_random R _) (-3) 0
              (diag Z mock_random) diag_pred ltac:(lia)
              ltac:(right; now left))
    as (G & E & _ & _ & HX & _).
  exists G. split; [exact E | exact HX].
Defined.

(** C5, refuted: [simple(-1)] returns a dataset, it does not raise. *)
Lemma negative_count_does_not_raise :
  ~ (forall g, In g (generators Z (@mock_random R _)) -> raises_on g (-1) 0).
Proof.
  intros Hall.
  destruct (Hall (simple Z mock_random) ltac:(now left)) as (e & s' & E).
  discriminate E.
Qed.

(** C5, amended. No generator validates its argument.  For negative [n]
    each of [simple], [diag], [split], [xor], [circle] returns
    [Graph(n, [], [])] without raising; so does [spiral] when
    [n // 2 >= -2^63], and below that it raises [OverflowError], from
    [[0] * (n // 2)].  With an odd [n] such that [n // 2] fits a list index,
    [spiral] returns, without raising, a dataset declared with [N = n] that
    holds [2*(n // 2)] points and labels. *)
Theorem no_generator_validates_its_argument {F : Type} `{FloatOps F}
    `{!FloatRange F} (Rng : Type) (random : Rng -> F * Rng) (n : Z)
    (s : Rng) :
  (n < 0 ->
   forall g p, In (g, p) (random_generators Rng random) ->
               g n s = (Ret (mkGraph n [] []), s))
  /\ (n < 0 -> - PY_SSIZE_T_MAX - 1 <= n / 2 ->
      spiral Rng n s = (Ret (mkGraph n [] []), s))
  /\ (n / 2 < - PY_SSIZE_T_MAX - 1 ->
      spiral Rng n s = (Raise OverflowError, s))
  /\ (Z.odd n = true -> index_sized (n / 2) ->
      exists G, spiral Rng n s = (Ret G, s)
                /\ N G = n
                /\ length (X G) = Z.to_nat (2 * (n / 2))
                /\ length (y G) = Z.to_nat (2 * (n / 2))).
Proof.
  split; [|split; [|split]].
  - intros Hn g p Hin. now apply (random_generator_negative Rng random n s g p).
  - intros Hn Hlo.
    assert (Hneg : n / 2 < 0) by (apply Z.div_lt_upper_bound; lia).
    assert (Hk : index_sized (n / 2))
      by (unfold index_sized, PY_SSIZE_T_MAX in *; lia).
    rewrite (spiral_run Rng n s Hk).
    rewrite range_nil by lia.
    replace (Z.to_nat (n / 2)) with 0%nat by lia. reflexivity.
  - intros Hlo. now apply spiral_overflow_low.
  - intros _ Hk. eexists. split; [now apply spiral_run|]. cbn [X y N].
    destruct (spiral_lengths n) as [LX Ly]. rewrite LX, Ly.
    repeat split; lia.
Qed.

Lemma no_generator_validates_its_argument_witness :
  -1 < 0 /\ Z.odd (-1) = true /\ index_sized (-1 / 2) /\
  xor Z (@mock_random R _) (-1) 0 = (Ret (mkGraph (-1) [] []), 0) /\
  exists G, @spiral R _ Z (-1) 0 = (Ret G, 0) /\ N G = -1.
Proof.
  assert (Hk : index_sized (-1 / 2)) by index_sized_literal.
  split; [lia|]. split; [reflexivity|]. split; [exact Hk|].
  destruct (no_generator_validates_its_argument Z (@mock_random R _) (-1) 0)
    as (Hneg & _ & _ & Hodd).
  split.
  - apply (Hneg ltac:(lia) _ xor_pred). do 3 right. now left.
  - destruct (Hodd eq_refl Hk) as (G & E & HN & _). exists G. auto.
Defined.

(** ** The registry *)

(** C6. [datasets] has exactly the keys "Simple", "Diag", "Split", "Xor",
    "Circle", "Spiral", bound to [simple], [diag], [split], [xor],
    [circle], [spiral] in this order; looking up one of them returns its
    generator and looking up any other name raises [KeyError]. *)
Theorem registry_lookup {F : Type} `{FloatOps F} (Rng : Type)
    (random : Rng -> F * Rng) (s : Rng) :
  let d := datasets Rng random in
  map fst d = ["Simple"; "Diag"; "Split"; "Xor"; "Circle"; "Spiral"]%string
  /\ dict_get d "Simple" s = (Ret (simple Rng random), s)
  /\ dict_get d "Diag" s = (Ret (diag Rng random), s)
  /\ dict_get d "Split" s = (Ret (split Rng random), s)
  /\ dict_get d "Xor" s = (Ret (xor Rng random), s)
  /\ dict_get d "Circle" s = (Ret (circle Rng random), s)
  /\ dict_get d "Spiral" s = (Ret (spiral Rng), s)
  /\ forall name : string,
       ~ In name (map fst d) -> dict_get d name s = (Raise (KeyError name), s).
Proof.
  repeat split. intros name Hnot. now apply dict_get_missing.
Qed.

(** ** The spiral's values *)

Lemma PI_lt_4 : (PI < 4)%R.
Proof.
  destruct (PI_ineq 1) as [_ Hub].
  unfold sum_f_R0, tg_alt, PI_tg in Hub. simpl in Hub.
  lra.
Qed.

Lemma cos_10_neg : (Rtrigo_def.cos 10 < 0)%R.
Proof.
  replace 10%R with ((10 - 2 * PI) + 2 * INR 1 * PI)%R by (simpl; ring).
  rewrite cos_period.
  pose proof PI_lt_4. pose proof PI2_3_2.
  apply cos_lt_0; lra.
Qed.

Lemma spiral_10_first_point_real (Rng : Type) (s : Rng) :
  exists rest,
    @spiral R _ Rng 10 s
    = (Ret (mkGraph 10
              ((10 * Rtrigo_def.cos 10 / 20 + 5 / 10,
                10 * Rtrigo_def.sin 10 / 20 + 5 / 10)%R :: rest)
              [0; 0; 0; 0; 0; 1; 1; 1; 1; 1]), s)
    /\ length rest = 9%nat.
Proof.
  rewrite (spiral_run Rng 10 s ltac:(index_sized_literal)).
  change (10 / 2) with 5. change (range 5 (5 + 5)) with [5; 6; 7; 8; 9].
  eexists. split.
  - cbn [map app]. do 3 f_equal.
    unfold spiral_A. cbn.
    replace (10 / 1 * (5 / 5))%R with 10%R by field.
    replace (20 / 1)%R with 20%R by field.
    reflexivity.
  - reflexivity.
Qed.

(** C3, refuted: the first coordinate of [spiral(10)]'s first point is not
    [cos(10)/20 + 0.5]. *)
Lemma spiral_10_first_x_is_not_cos_10_over_20 :
  ~ spiral_10_first_x Z 0 (Rtrigo_def.cos 10 / 20 + 5 / 10)%R.
Proof.
  intros (G & E & _ & _ & _ & p & rest & HX & Hp).
  destruct (spiral_10_first_point_real Z 0) as (rest' & E' & _).
  rewrite E' in E. inversion E; subst G. cbn [X] in HX.
  inversion HX; subst p rest. cbn [fst] in Hp.
  pose proof cos_10_neg. lra.
Qed.

(** C3, amended. [spiral(10)] produces exactly 10 points, the first 5
    labelled 0 and the last 5 labelled 1, and its first point, at
    [t = 10*(5/5) = 10], has first coordinate [x1 = 10*cos(10)/20 + 0.5]:
    over the reals, and in binary64 whatever [math.cos] returns. *)
Theorem spiral_10_first_x_is_10_cos_10_over_20 (Rng : Type) (s : Rng) :
  spiral_10_first_x Rng s (10 * Rtrigo_def.cos 10 / 20 + 5 / 10)%R
  /\ forall c sn : float -> float,
       @spiral_10_first_x float (Binary64.ops c sn) Rng s
         (10 * c 10 / 20 + 0.5)%float.
Proof.
  split.
  - destruct (spiral_10_first_point_real Rng s) as (rest & E & L).
    eexists. split; [exact E|]. cbn [X y]. repeat split.
    + simpl. now rewrite L.
    + eexists. eexists. split; reflexivity.
  - intros c sn. eexists.
    split; [apply spiral_run; [exact _ | index_sized_literal]|].
    change (10 / 2) with 5. change (range 5 (5 + 5)) with [5; 6; 7; 8; 9].
    cbn [X y]. repeat split.
    eexists. eexists. split; [reflexivity|].
    cbn [fst]. unfold spiral_A. cbn [fst].
    change (@float_of_int float (Binary64.ops c sn) 5) with (Binary64.of_Z 5).
    change (@lit float (Binary64.ops c sn)) with
      (fun n d => PrimFloat.div (Binary64.of_Z n) (Binary64.of_Z d)).
    cbn beta.
    replace (Binary64.of_Z 10 / Binary64.of_Z 1
             * (Binary64.of_Z 5 / Binary64.of_Z 5))%float
      with 10%float by (vm_compute; reflexivity).
    replace (Binary64.of_Z 20 / Binary64.of_Z 1)%float
      with 20%float by (vm_compute; reflexivity).
    replace (Binary64.of_Z 5 / Binary64.of_Z 10)%float
      with 0.5%float by (vm_compute; reflexivity).
    reflexivity.
Qed.








(** ** The points [make_pts] draws *)
Section Draws.

Context {F : Type} `{FloatOps F}.
Variable Rng : Type.
Variable random : Rng -> F * Rng.

Lemma make_pts_loop_draws (l : list Z) :
  forall (acc : list (F * F)) (s : Rng),
    for_ l (fun _ X =>
              x_1 <- random_random Rng random ;;
              x_2 <- random_random Rng random ;;
              ret (X ++ [(x_1, x_2)])) acc s
    = (Ret (acc ++ fst (draw_pts Rng random (length l) s)),
       snd (draw_pts Rng random (length l) s)).
Proof.
  induction l as [|i l IH]; intros acc s; simpl.
  - now rewrite app_nil_r.
  - unfold bind at 1. unfold bind at 1. unfold random_random at 1.
    destruct (random s) as [x_1 s1].
    unfold bind at 1. unfold random_random at 1.
    destruct (random s1) as [x_2 s2]. unfold ret at 1.
    rewrite IH.
    destruct (draw_pts Rng random (length l) s2) as [pts s'].
    simpl. now rewrite <- app_assoc.
Qed.

Lemma make_pts_draw_pts (n : Z) (s : Rng) :
  make_pts Rng random n s
  = (Ret (fst (draw_pts Rng random (Z.to_nat n) s)),
     snd (draw_pts Rng random (Z.to_nat n) s)).
Proof.
  unfold make_pts. rewrite make_pts_loop_draws, range_length.
  now replace (Z.to_nat (n - 0)) with (Z.to_nat n) by lia.
Qed.

Lemma random_generator_draws g p (n : Z) (s : Rng) :
  In (g, p) (random_generators Rng random) ->
  g n s
  = (Ret (mkGraph n (fst (draw_pts Rng random (Z.to_nat n) s))
            (map (label_of p) (fst (draw_pts Rng random (Z.to_nat n) s)))),
     snd (draw_pts Rng random (Z.to_nat n) s)).
Proof.
  intros Hin.
  destruct (random_generator_run Rng random g p n s Hin)
    as (pts & s' & Emk & _ & E).
  rewrite make_pts_draw_pts in Emk. inversion Emk; subst pts s'. exact E.
Qed.

Lemma draw_pts_length (n : nat) (s : Rng) :
  length (fst (draw_pts Rng random n s)) = n.
Proof.
  revert s. induction n as [|n IH]; intros s; simpl; [reflexivity|].
  destruct (random s) as [x_1 s1]. destruct (random s1) as [x_2 s2].
  specialize (IH s2). destruct (draw_pts Rng random n s2) as [pts s'].
  simpl in *. now rewrite IH.
Qed.

Lemma after_draws_SS (k : nat) (s : Rng) :
  after_draws Rng random (S (S k)) s
  = after_draws Rng random k (snd (random (snd (random s)))).
Proof. unfold after_draws. now rewrite !Nat.iter_succ_r. Qed.

Lemma draw_pts_state (n : nat) (s : Rng) :
  snd (draw_pts Rng random n s) = after_draws Rng random (2 * n) s.
Proof.
  revert s. induction n as [|n IH]; intros s; [reflexivity|].
  replace (2 * S n)%nat with (S (S (2 * n))) by lia.
  rewrite after_draws_SS, <- IH. cbn [draw_pts].
  destruct (random s) as [x_1 s1]. cbn [snd].
  destruct (random s1) as [x_2 s2]. cbn [snd].
  now destruct (draw_pts Rng random n s2).
Qed.

Lemma draw_pts_nth (n : nat) :
  forall (s : Rng) (i : nat),
    (i < n)%nat ->
    nth_error (fst (draw_pts Rng random n s)) i
    = Some (draw Rng random (2 * i) s, draw Rng random (2 * i + 1) s).
Proof.
  induction n as [|n IH]; intros s i Hi; [lia|].
  destruct i as [|i].
  - unfold draw, after_draws. simpl.
    destruct (random s) as [x_1 s1]. simpl.
    destruct (random s1) as [x_2 s2].
    now destruct (draw_pts Rng random n s2).
  - replace (2 * S i)%nat with (S (S (2 * i))) by lia.
    replace (S (S (2 * i)) + 1)%nat with (S (S (2 * i + 1))) by lia.
    unfold draw. rewrite !after_draws_SS.
    specialize (IH (snd (random (snd (random s)))) i ltac:(lia)).
    unfold draw in IH. rewrite <- IH. cbn [draw_pts].
    destruct (random s) as [x_1 s1]. cbn [snd].
    destruct (random s1) as [x_2 s2]. cbn [snd].
    now destruct (draw_pts Rng random n s2).
Qed.

Lemma draw_pts_prefix (n : nat) :
  forall (m : nat) (s : Rng),
    (n <= m)%nat ->
    fst (draw_pts Rng random n s) = firstn n (fst (draw_pts Rng random m s)).
Proof.
  induction n as [|n IH]; intros m s Hle; [reflexivity|].
  destruct m as [|m]; [lia|]. simpl.
  destruct (random s) as [x_1 s1]. destruct (random s1) as [x_2 s2].
  specialize (IH m s2 ltac:(lia)).
  destruct (draw_pts Rng random n s2) as [pts s'].
  destruct (draw_pts Rng random m s2) as [pts2 s2'].
  simpl in *. now rewrite IH.
Qed.

Lemma draw_pts_Forall (P : F -> Prop) (n : nat) :
  (forall s, P (fst (random s))) ->
  forall s, Forall (fun pt => P (fst pt) /\ P (snd pt))
                   (fst (draw_pts Rng random n s)).
Proof.
  intros HP. induction n as [|n IH]; intros s; simpl; [constructor|].
  pose proof (HP s) as H1.
  destruct (random s) as [x_1 s1].
  pose proof (HP s1) as H2.
  destruct (random s1) as [x_2 s2].
  specialize (IH s2). destruct (draw_pts Rng random n s2) as [pts s'].
  simpl in *. constructor; auto.
Qed.

End Draws.

(** X1. [make_pts(n)] makes exactly [2*max(n, 0)] draws, in order: point
    [i] is (draw [2i], draw [2i+1]), [x_1] being drawn before [x_2]. *)
Theorem make_pts_draws_in_order {F : Type} `{FloatOps F} (Rng : Type)
    (random : Rng -> F * Rng) (n : Z) (s : Rng) :
  exists pts,
    make_pts Rng random n s
    = (Ret pts, after_draws Rng random (2 * Z.to_nat n) s)
    /\ length pts = Z.to_nat n
    /\ forall i, (i < Z.to_nat n)%nat ->
         nth_error pts i
         = Some (draw Rng random (2 * i) s, draw Rng random (2 * i + 1) s).
Proof.
  exists (fst (draw_pts Rng random (Z.to_nat n) s)).
  rewrite make_pts_draw_pts, draw_pts_state. split; [reflexivity|].
  split; [apply draw_pts_length|]. intros i Hi. now apply draw_pts_nth.
Qed.

(** X2. From the same state of the random source, a generator called with
    [n <= m] returns the first [n] points and labels of what it returns
    when called with [m]. *)
Theorem smaller_count_is_a_prefix {F : Type} `{FloatOps F} (Rng : Type)
    (random : Rng -> F * Rng) (n m : Z) (s : Rng) g p :
  n <= m ->
  In (g, p) (random_generators Rng random) ->
  exists G1 G2 s1 s2,
    g n s = (Ret G1, s1) /\ g m s = (Ret G2, s2)
    /\ X G1 = firstn (Z.to_nat n) (X G2)
    /\ y G1 = firstn (Z.to_nat n) (y G2).
Proof.
  intros Hle Hin.
  do 4 eexists.
  split; [apply (random_generator_draws Rng random g p n s Hin)|].
  split; [apply (random_generator_draws Rng random g p m s Hin)|].
  cbn [X y]. rewrite firstn_map.
  rewrite <- (draw_pts_prefix Rng random (Z.to_nat n) (Z.to_nat m)) by lia.
  split; reflexivity.
Qed.

Lemma smaller_count_is_a_prefix_witness :
  2 <= 5 /\
  exists G1 G2 s1 s2,
    xor Z (@mock_random R _) 2 0 = (Ret G1, s1)
    /\ xor Z (@mock_random R _) 5 0 = (Ret G2, s2)
    /\ X G1 = firstn 2 (X G2).
Proof.
  split; [lia|].
  destruct (smaller_count_is_a_prefix Z (@mock_random R _) 2 5 0
              (xor Z mock_random) xor_pred ltac:(lia)
              ltac:(do 3 right; now left))
    as (G1 & G2 & s1 & s2 & E1 & E2 & HX & _).
  exists G1, G2, s1, s2. auto.
Defined.

(** X3. The five random generators differ only in their labels: from the
    same state of the random source and for the same [n] any two of them
    return the same points and leave the random source in the same state. *)
Theorem generators_draw_the_same_points {F : Type} `{FloatOps F}
    (Rng : Type) (random : Rng -> F * Rng) (n : Z) (s : Rng) g1 p1 g2 p2 :
  In (g1, p1) (random_generators Rng random) ->
  In (g2, p2) (random_generators Rng random) ->
  exists G1 G2 s',
    g1 n s = (Ret G1, s') /\ g2 n s = (Ret G2, s')
    /\ X G1 = X G2
    /\ s' = after_draws Rng random (2 * Z.to_nat n) s.
Proof.
  intros Hin1 Hin2. do 3 eexists.
  split; [apply (random_generator_draws Rng random g1 p1 n s Hin1)|].
  split; [apply (random_generator_draws Rng random g2 p2 n s Hin2)|].
  split; [reflexivity | apply draw_pts_state].
Qed.

Lemma generators_draw_the_same_points_witness :
  exists G1 G2 s',
    simple Z (@mock_random R _) 3 0 = (Ret G1, s')
    /\ circle Z (@mock_random R _) 3 0 = (Ret G2, s')
    /\ X G1 = X G2.
Proof.
  destruct (generators_draw_the_same_points Z (@mock_random R _) 3 0
              (simple Z mock_random) simple_pred
              (circle Z mock_random) circle_pred
              ltac:(now left) ltac:(do 4 right; now left))
    as (G1 & G2 & s' & E1 & E2 & HX & _).
  exists G1, G2, s'. auto.
Defined.

(** X4. Every coordinate of every point of a random generator is a value
    the random source returned: whatever holds of every draw holds of both
    coordinates of every point of [X]. *)
Theorem coordinates_are_draws {F : Type} `{FloatOps F} (Rng : Type)
    (random : Rng -> F * Rng) (P : F -> Prop) (n : Z) (s : Rng) g p :
  (forall s, P (fst (random s))) ->
  In (g, p) (random_generators Rng random) ->
  exists G s',
    g n s = (Ret G, s')
    /\ Forall (fun pt => P (fst pt) /\ P (snd pt)) (X G).
Proof.
  intros HP Hin. do 2 eexists.
  split; [apply (random_generator_draws Rng random g p n s Hin)|].
  cbn [X]. now apply draw_pts_Forall.
Qed.

Lemma mock_random_in_unit_interval (s : Z) :
  (0 <= fst (@mock_random R _ s) < 1)%R.
Proof.
  unfold mock_random. simpl.
  pose proof (Z.mod_pos_bound s 10 ltac:(lia)) as [Hlo Hhi].
  apply IZR_le in Hlo. apply IZR_lt in Hhi. lra.
Qed.

Lemma coordinates_are_draws_witness :
  (forall s, (0 <= fst (@mock_random R _ s) < 1)%R) /\
  exists G s',
    split Z (@mock_random R _) 4 0 = (Ret G, s')
    /\ Forall (fun pt => (0 <= fst pt < 1)%R /\ (0 <= snd pt < 1)%R) (X G).
Proof.
  split; [exact mock_random_in_unit_interval|].
  apply (coordinates_are_draws Z (@mock_random R _)
           (fun x => (0 <= x < 1)%R) 4 0 (split Z mock_random) split_pred
           mock_random_in_unit_interval).
  do 2 right. now left.
Defined.

Lemma dict_get_In {S V} (d : list (string * V)) (key : string) (v : V)
    (s s' : S) :
  dict_get d key s = (Ret v, s') -> In (key, v) d.
Proof.
  induction d as [|[k v'] d IH]; simpl.
  - discriminate.
  - destruct (String.eqb_spec k key) as [->|Hne].
    + unfold ret. intros E. inversion E. now left.
    + intros E. right. now apply IH.
Qed.

(** X5. Whatever generator the registry returns for a name, calling it with
    any integer, negative or odd ones too (for "Spiral", one whose half
    fits a list index), returns a dataset without raising: its declared
    [N] is the argument, [X] and [y] have the same length and every label
    is 0 or 1. *)
Theorem registered_generators_return_parallel_lists {F : Type} `{FloatOps F}
    `{!FloatRange F} (Rng : Type) (random : Rng -> F * Rng) (name : string)
    g (s0 s0' : Rng) :
  dict_get (datasets Rng random) name s0 = (Ret g, s0') ->
  forall (n : Z) (s : Rng),
    (name = "Spiral"%string -> index_sized (n / 2)) ->
    exists G s',
      g n s = (Ret G, s')
      /\ N G = n
      /\ length (X G) = length (y G)
      /\ Forall (fun l => l = 0 \/ l = 1) (y G).
Proof.
  intros Hget n s Hidx. apply dict_get_In in Hget.
  assert (Hfive : forall p, In (g, p) (random_generators Rng random) ->
            exists G s',
              g n s = (Ret G, s') /\ N G = n
              /\ length (X G) = length (y G)
              /\ Forall (fun l => l = 0 \/ l = 1) (y G)).
  { intros p Hin. do 2 eexists.
    split; [apply (random_generator_draws Rng random g p n s Hin)|].
    cbn [N X y]. rewrite length_map. repeat split.
    apply Forall_forall. intros l Hl. apply in_map_iff in Hl.
    destruct Hl as (pt & <- & _). unfold label_of.
    destruct (p (fst pt) (snd pt)); auto. }
  simpl in Hget.
  destruct Hget as [E|[E|[E|[E|[E|[E|[]]]]]]]; inversion E; subst.
  - apply (Hfive simple_pred). now left.
  - apply (Hfive diag_pred). right; now left.
  - apply (Hfive split_pred). do 2 right; now left.
  - apply (Hfive xor_pred). do 3 right; now left.
  - apply (Hfive circle_pred). do 4 right; now left.
  - do 2 eexists. split; [apply (spiral_run Rng n s (Hidx eq_refl))|].
    cbn [N X y].
    destruct (spiral_lengths n) as [LX Ly]. rewrite LX, Ly.
    repeat split. apply Forall_app. split; apply Forall_forall;
      intros l Hl; apply repeat_spec in Hl; auto.
Qed.

Lemma registered_generators_return_parallel_lists_witness :
  index_sized (-7 / 2) /\
  exists G s',
    @spiral R _ Z (-7) 0 = (Ret G, s') /\ length (X G) = length (y G).
Proof.
  assert (Hidx : index_sized (-7 / 2)) by index_sized_literal.
  split; [exact Hidx|].
  destruct (registered_generators_return_parallel_lists Z (@mock_random R _)
              "Spiral" (spiral Z) 0 0 eq_refl (-7) 0 (fun _ => Hidx))
    as (G & s' & E & _ & L & _).
  exists G, s'. auto.
Defined.

(** ** More on the spiral *)

(** X6. For an odd [n] such that [n // 2] fits a list index, [spiral(n)]
    computes the points and labels of [spiral(n - 1)]: only the declared
    [N] differs, and for [n >= 1] the dataset holds [n - 1] points. *)
Theorem spiral_odd_is_spiral_of_predecessor {F : Type} `{FloatOps F}
    `{!FloatRange F} (Rng : Type) (n : Z) (s : Rng) :
  Z.odd n = true ->
  index_sized (n / 2) ->
  exists G1 G2,
    spiral Rng n s = (Ret G1, s)
    /\ spiral Rng (n - 1) s = (Ret G2, s)
    /\ X G1 = X G2
    /\ y G1 = y G2
    /\ N G1 = N G2 + 1
    /\ (1 <= n -> Z.of_nat (length (X G1)) = n - 1).
Proof.
  intros Hodd Hk. apply Z.odd_spec in Hodd. destruct Hodd as [m ->].
  assert (E1 : (2 * m + 1) / 2 = m).
  { rewrite (Z.mul_comm 2 m), Z.div_add_l by lia. change (1 / 2) with 0. lia. }
  assert (E2 : (2 * m + 1 - 1) / 2 = m).
  { replace (2 * m + 1 - 1) with (m * 2) by lia. apply Z.div_mul. lia. }
  assert (Hk' : index_sized ((2 * m + 1 - 1) / 2)) by now rewrite E2, <- E1.
  do 2 eexists.
  split; [apply (spiral_run Rng _ s Hk)|].
  split; [apply (spiral_run Rng _ s Hk')|].
  cbn [N X y]. unfold spiral_A, spiral_B. rewrite E1, E2.
  repeat split; try lia.
  intros Hn. rewrite !length_app, !length_map, range_length. lia.
Qed.

Lemma spiral_odd_is_spiral_of_predecessor_witness :
  Z.odd 7 = true /\ index_sized (7 / 2) /\
  exists G1 G2 : Graph R,
    spiral Z 7 0 = (Ret G1, 0) /\ spiral Z 6 0 = (Ret G2, 0)
    /\ X G1 = X G2 /\ y G1 = y G2.
Proof.
  assert (Hk : index_sized (7 / 2)) by index_sized_literal.
  split; [reflexivity|]. split; [exact Hk|].
  destruct (spiral_odd_is_spiral_of_predecessor Z 7 0 eq_refl Hk)
    as (G1 & G2 & E1 & E2 & HX & Hy & _).
  exists G1, G2. auto.
Defined.

Lemma spiral_nth_A {F : Type} `{FloatOps F} (n : Z) (k : nat) :
  (k < Z.to_nat (n / 2))%nat ->
  nth_error (map (spiral_A n) (range 5 (5 + n / 2))
             ++ map (spiral_B n) (range 5 (5 + n / 2))) k
  = Some (spiral_A n (5 + Z.of_nat k)).
Proof.
  intros Hk.
  rewrite nth_error_app1 by (rewrite length_map, range_length; lia).
  rewrite nth_error_map, range_nth by lia. reflexivity.
Qed.

Lemma spiral_nth_B {F : Type} `{FloatOps F} (n : Z) (k : nat) :
  (k < Z.to_nat (n / 2))%nat ->
  nth_error (map (spiral_A n) (range 5 (5 + n / 2))
             ++ map (spiral_B n) (range 5 (5 + n / 2)))
            (Z.to_nat (n / 2) + k)
  = Some (spiral_B n (5 + Z.of_nat k)).
Proof.
  intros Hk.
  rewrite nth_error_app2 by (rewrite length_map, range_length; lia).
  rewrite length_map, range_length.
  replace (Z.to_nat (n / 2) + k - Z.to_nat (5 + n / 2 - 5))%nat with k by lia.
  rewrite nth_error_map, range_nth by lia. reflexivity.
Qed.
















(** ** More on the rules *)

(** X10. Over the reals, [xor] labels a point 1 exactly when it lies
    strictly on opposite sides of the two lines [x1 = 0.5] and [x2 = 0.5]:
    when [(x1 - 0.5) * (x2 - 0.5) < 0]. *)
Theorem xor_label_is_sign_of_product (Rng : Type) (random : Rng -> R * Rng)
    (n : Z) (s : Rng) :
  exists (G : Graph R) s',
    xor Rng random n s = (Ret G, s')
    /\ forall i x1 x2,
         nth_error (X G) i = Some (x1, x2) ->
         exists l,
           nth_error (y G) i = Some l
           /\ (l = 1 <-> ((x1 - 5 / 10) * (x2 - 5 / 10) < 0)%R).
Proof.
  do 2 eexists.
  split; [apply (random_generator_draws Rng random _ xor_pred n s);
          do 3 right; now left|].
  cbn [X y]. intros i x1 x2 Hnth. eexists.
  split; [rewrite nth_error_map, Hnth; reflexivity|].
  unfold label_of, xor_pred. cbn [fst snd]. simpl.
  destruct (RealModel.Rltb x1 (5 / 10)) eqn:E1;
    destruct (RealModel.Rltb (5 / 10) x2) eqn:E2;
    destruct (RealModel.Rltb (5 / 10) x1) eqn:E3;
    destruct (RealModel.Rltb x2 (5 / 10)) eqn:E4;
    rewrite ?Rltb_true, ?Rltb_false in *; simpl;
    split; intros Hl; try reflexivity; try discriminate; try nra.
Qed.

(** X11. Over the reals and with a random source whose draws are never
    negative, [diag] and [simple] called with the same [n] from the same
    state return the same points, and every point that [diag] labels 1 is
    labelled 1 by [simple] too. *)
Theorem diag_label_implies_simple_label (Rng : Type)
    (random : Rng -> R * Rng) (n : Z) (s : Rng) :
  (forall s, (0 <= fst (random s))%R) ->
  exists (Gd Gs : Graph R) s',
    diag Rng random n s = (Ret Gd, s')
    /\ simple Rng random n s = (Ret Gs, s')
    /\ X Gd = X Gs
    /\ forall i, nth_error (y Gd) i = Some 1 -> nth_error (y Gs) i = Some 1.
Proof.
  intros Hpos. do 3 eexists.
  split; [apply (random_generator_draws Rng random _ diag_pred n s);
          right; now left|].
  split; [apply (random_generator_draws Rng random _ simple_pred n s);
          now left|].
  cbn [X y]. split; [reflexivity|].
  intros i. rewrite !nth_error_map.
  pose proof (draw_pts_Forall Rng random (fun x => (0 <= x)%R)
                (Z.to_nat n) Hpos s) as Hall.
  destruct (nth_error (fst (draw_pts Rng random (Z.to_nat n) s)) i)
    as [[x1 x2]|] eqn:Hnth; [|discriminate].
  rewrite Forall_forall in Hall.
  destruct (Hall (x1, x2) (nth_error_In _ _ Hnth)) as [_ Hx2].
  cbn [fst snd option_map] in *.
  unfold label_of, diag_pred, simple_pred. cbn [fst snd]. simpl.
  destruct (RealModel.Rltb (x1 + x2) (5 / 10)) eqn:Ed; [|discriminate].
  intros _. apply Rltb_true in Ed.
  destruct (RealModel.Rltb x1 (5 / 10)) eqn:Es; [reflexivity|].
  apply Rltb_false in Es. lra.
Qed.

Lemma diag_label_implies_simple_label_witness :
  (forall s, (0 <= fst (@mock_random R _ s))%R) /\
  exists (Gd Gs : Graph R) s',
    diag Z mock_random 6 0 = (Ret Gd, s')
    /\ simple Z mock_random 6 0 = (Ret Gs, s')
    /\ X Gd = X Gs.
Proof.
  assert (Hpos : forall s, (0 <= fst (@mock_random R _ s))%R)
    by (intros s; apply mock_random_in_unit_interval).
  split; [exact Hpos|].
  destruct (diag_label_implies_simple_label Z mock_random 6 0 Hpos)
    as (Gd & Gs & s' & Ed & Es & HX & _).
  exists Gd, Gs, s'. auto.
Defined.

(** ** The spiral in binary64 *)

Lemma SFmul_opp_opp (a b : spec_float) :
  SFmul prec emax (SFopp a) (SFopp b) = SFmul prec emax a b.
Proof.
  destruct a as [sa|sa| |sa ma ea], b as [sb|sb| |sb mb eb]; simpl;
    try reflexivity; now destruct sa, sb.
Qed.

Lemma float_mul_opp_opp (a b : float) : (- a * - b)%float = (a * b)%float.
Proof.
  apply Prim2SF_inj. rewrite !mul_spec, !opp_spec. apply SFmul_opp_opp.
Qed.

(** X12. In binary64, for a [math.sin] that is odd ([sin(-x) = -sin(x)]
    exactly) and [n // 2] that fits a list index, the first coordinate of
    Arm B's [k]-th point is the second coordinate of Arm A's [k]-th point,
    bit for bit. *)
Theorem spiral_arm_B_x_is_arm_A_y_binary64 (c sn : float -> float)
    (Rng : Type) (n : Z) (s : Rng) :
  (forall x : float, sn (- x)%float = (- sn x)%float) ->
  index_sized (n / 2) ->
  exists G : Graph float,
    @spiral float (Binary64.ops c sn) Rng n s = (Ret G, s)
    /\ forall k, (k < Z.to_nat (n / 2))%nat ->
         exists a b : float * float,
           nth_error (X G) k = Some a
           /\ nth_error (X G) (Z.to_nat (n / 2) + k) = Some b
           /\ fst b = snd a.
Proof.
  intros Hodd Hidx. eexists.
  split; [apply (@spiral_run float (Binary64.ops c sn) Rng
                   (Binary64_range c sn) n s Hidx)|].
  cbn [X]. intros k Hk.
  do 2 eexists.
  split; [apply spiral_nth_A; exact Hk|].
  split; [apply spiral_nth_B; exact Hk|].
  unfold spiral_A, spiral_B. cbn [fst snd].
  rewrite (@fmul_fneg_l float (Binary64.ops c sn) (Binary64_laws c sn)).
  simpl. rewrite Hodd, float_mul_opp_opp. reflexivity.
Qed.

Lemma spiral_arm_B_x_is_arm_A_y_binary64_witness :
  (forall x : float, (fun v => v) (- x)%float = (- (fun v => v) x)%float) /\
  index_sized (4 / 2) /\
  exists G : Graph float,
    @spiral float (Binary64.ops (fun v => v) (fun v => v)) Z 4 0 = (Ret G, 0)
    /\ exists a b : float * float,
         nth_error (X G) 1 = Some a
         /\ nth_error (X G) 3 = Some b
         /\ fst b = snd a.
Proof.
  assert (Hidx : index_sized (4 / 2)) by index_sized_literal.
  split; [reflexivity|]. split; [exact Hidx|].
  destruct (spiral_arm_B_x_is_arm_A_y_binary64 (fun v => v) (fun v => v)
              Z 4 0 ltac:(reflexivity) Hidx)
    as (G & E & Hk).
  exists G. split; [exact E|]. exact (Hk 1%nat ltac:(vm_compute; lia)).
Defined.
